(** * onedocker_runner: a shallow embedding of [onedocker/onedocker_runner.py]

    The launcher downloads a packaged executable, makes it executable and
    runs it as a supervised child process.  The pure parts of the module
    (string handling, package-name parsing) are plain functions; the
    effectful parts ([_read_config], [_download_executables], [run]) are
    written in a small monad that threads the interpreter state, records the
    calls made to the outside world and propagates Python exceptions. *)

From Stdlib Require Import ZArith List Ascii String DecimalString Lia.
From stdpp Require Import base strings gmap.

Local Open Scope Z_scope.

(** ** Python values and exceptions *)

(** The exceptions that the module raises, catches or lets through.
    [ExternalError] stands for whatever the storage layer raises;
    [ProcessLookupError] and [PermissionError] are the errors of
    [os.killpg]. *)
Inductive exn : Type :=
| IndexError
| TimeoutExpired
| InterruptedError
| KeyboardInterrupt
| SystemExit (code : Z)
| ExternalError (msg : string)
| ProcessLookupError
| PermissionError.

(** Outcome of evaluating a Python expression or statement. *)
Inductive result (A : Type) : Type :=
| Ok (a : A)
| Raise (e : exn).
Arguments Ok {A} a.
Arguments Raise {A} e.

Definition result_bind {A B} (r : result A) (k : A -> result B) : result B :=
  match r with
  | Ok a => k a
  | Raise e => Raise e
  end.

Definition is_ok {A} (r : result A) : bool :=
  match r with Ok _ => true | Raise _ => false end.

(** ** Strings *)

Module Str.

Definition slash : ascii := "/"%char.

(** [c.upper()] on one character: the ASCII letters a-z move to A-Z, any
    other byte is kept. *)
Definition upper_ascii (c : ascii) : ascii :=
  let n := N_of_ascii c in
  if ((97 <=? n) && (n <=? 122))%N then ascii_of_N (n - 32) else c.

(** [s.upper()] *)
Fixpoint upper (s : string) : string :=
  match s with
  | EmptyString => EmptyString
  | String c r => String (upper_ascii c) (upper r)
  end.

(** [s.split(sep)] for a one-character separator: every occurrence of
    [sep] ends a field, so the list has one more field than [s] has
    separators and is never empty. *)
Fixpoint split (sep : ascii) (s : string) : list string :=
  match s with
  | EmptyString => [EmptyString]
  | String c r =>
      if Ascii.eqb c sep then EmptyString :: split sep r
      else match split sep r with
           | f :: fs => String c f :: fs
           | [] => [String c EmptyString]
           end
  end.

(** [sep in s] *)
Fixpoint contains (sep : ascii) (s : string) : bool :=
  match s with
  | EmptyString => false
  | String c r => Ascii.eqb c sep || contains sep r
  end.

(** [s.count(sep)] *)
Fixpoint count (sep : ascii) (s : string) : nat :=
  match s with
  | EmptyString => O
  | String c r => ((if Ascii.eqb c sep then 1 else 0) + count sep r)%nat
  end.

(** [str(n)] for an integer. *)
Definition of_Z (n : Z) : string := NilZero.string_of_int (Z.to_int n).

End Str.

(** [l[i]] on a Python list: an index past the end raises [IndexError]. *)
Definition py_index {A} (l : list A) (i : nat) : result A :=
  match l !! i with
  | Some x => Ok x
  | None => Raise IndexError
  end.

(** ** Module constants *)

Definition DEFAULT_REPOSITORY_PATH : string :=
  "https://one-docker-repository.s3.us-west-1.amazonaws.com/".

Definition DEFAULT_EXE_FOLDER : string := "/root/one_docker/package/".

(** ** Package Name Parser *)

(** [return package_name.split("/")[0], package_name.split("/")[1]] *)
Definition _parse_package_name (package_name : string)
  : result (string * string) :=
  result_bind (py_index (Str.split Str.slash package_name) 0) (fun team =>
  result_bind (py_index (Str.split Str.slash package_name) 1) (fun exe_name =>
  Ok (team, exe_name))).

(** The invariant that the data model states for a package name: exactly one
    separator, with a non-empty team before it and a non-empty executable
    name after it.  This definition follows the specification's wording; it
    is what the parser is compared against. *)
Definition well_formed_package_name (package_name : string) : bool :=
  match Str.split Str.slash package_name with
  | [team; exe] => negb (String.eqb team "") && negb (String.eqb exe "")
  | _ => false
  end.

(** ** The outside world and the effects of the module *)

Inductive signal : Type := SIGINT | SIGTERM.

(** A [logging.Logger], known by its name. *)
Definition Logger : Type := string.

(** The value [psutil.net_io_counters()] returns (the two fields used). *)
Record snetio : Type := { bytes_sent : Z; bytes_recv : Z }.

(** A [subprocess.Popen] object (the field used). *)
Record Popen : Type := { pid : Z }.

(** An [S3StorageService] client, made for a region. *)
Record S3StorageService : Type := { svc_region : string }.

(** How the blocking [proc.communicate(timeout=...)] ends: the child exits,
    the timeout expires first, or SIGINT is delivered to the launcher. *)
Inductive wait_outcome : Type := ChildExits | TimerExpires | SigintArrives.

(** What [os.killpg] finds: the signal is delivered to the group, or no
    process of that group is left (errno ESRCH, ProcessLookupError), or the
    caller may not signal it (errno EPERM, PermissionError). *)
Inductive killpg_outcome : Type := Delivered | NoSuchGroup | NotPermitted.

(** How a wait without timeout for a child that has not been reaped yet
    ends: the child ends and is reaped, or SIGINT is delivered to the
    launcher while it waits. *)
Inductive closing_outcome : Type := ChildReaped | SigintWhileClosing.

(** What one invocation finds outside the interpreter: the process
    environment, the storage layer, the commands it starts, the network
    counters, the process group of the launcher, what becomes of the signals
    it sends.  All of it is input to the model; nothing is assumed of it.
    A world tells how each blocking call ends: an invocation in which a
    blocking call never returns has no outcome, and no world stands for
    it. *)
Record world : Type := {
  environ : gmap string string;
  s3path_region : string -> result string;
  s3_copy : string -> string -> string -> result unit;
  shell_returncode : string -> Z;
  child_pid : Z;
  child_wait : option Z -> wait_outcome;
  child_returncode : Z;
  net_counters : nat -> snetio;
  launcher_pgid : Z;
  killpg_finds : Z -> signal -> killpg_outcome;
  closing_wait : closing_outcome
}.

(** The calls that leave the interpreter, in the order they are made. *)
Inductive event : Type :=
| EvLog (logger : Logger) (msg : string)
| EvS3Copy (region src dst : string)
| EvShell (cmd : string)
| EvSignal (sig : signal)
| EvPopen (cmd : string)
| EvNetIoCounters
| EvCommunicate (timeout : option Z)
| EvTerminate (p : Z)
| EvKillpg (pgid : Z) (sig : signal)
| EvWait (p : Z)
| EvPopenExit (p : Z).

(** State that the module changes: the handler installed for SIGINT
    ([None] is Python's default, which raises KeyboardInterrupt); the number
    of counter samples taken so far; the [returncode] attribute of the
    [Popen] object, [None] until the child has been reaped; the process
    group that the child was started in. *)
Record state : Type := {
  sigint_handler : option (signal -> result unit);
  net_samples : nat;
  returncode : option Z;
  child_group : option Z
}.

Definition set_sigint_handler (h : signal -> result unit) (s : state)
  : state :=
  {| sigint_handler := Some h;
     net_samples := net_samples s;
     returncode := returncode s;
     child_group := child_group s |}.

Definition count_net_sample (s : state) : state :=
  {| sigint_handler := sigint_handler s;
     net_samples := S (net_samples s);
     returncode := returncode s;
     child_group := child_group s |}.

Definition set_returncode (rc : option Z) (s : state) : state :=
  {| sigint_handler := sigint_handler s;
     net_samples := net_samples s;
     returncode := rc;
     child_group := child_group s |}.

Definition set_child_group (g : Z) (s : state) : state :=
  {| sigint_handler := sigint_handler s;
     net_samples := net_samples s;
     returncode := returncode s;
     child_group := Some g |}.

(** A computation reads the world, updates the state, and yields the events
    it caused together with a value or a raised exception. *)
Definition M (A : Type) : Type :=
  world -> state -> list event * state * result A.

Definition ret {A} (a : A) : M A := fun _ s => ([], s, Ok a).

Definition bind {A B} (m : M A) (k : A -> M B) : M B := fun w s =>
  match m w s with
  | (t, s', Ok a) => let '(t', s'', r) := k a w s' in (t ++ t', s'', r)
  | (t, s', Raise e) => (t, s', Raise e)
  end.

#[global] Instance M_ret : MRet M := @ret.
#[global] Instance M_bind : MBind M := fun A B k m => bind m k.

Definition raise {A} (e : exn) : M A := fun _ s => ([], s, Raise e).

Definition lift {A} (r : result A) : M A := fun _ s => ([], s, r).

Definition emit (e : event) : M unit := fun _ s => ([e], s, Ok tt).

(** [try: m  except <handles> as e: h e] *)
Definition try_except {A} (m : M A) (handles : exn -> bool) (h : exn -> M A)
  : M A := fun w s =>
  match m w s with
  | (t, s', Raise e) =>
      if handles e
      then let '(t', s'', r) := h e w s' in (t ++ t', s'', r)
      else (t, s', Raise e)
  | done => done
  end.

(** Projections of a finished computation. *)
Definition events {A} (x : list event * state * result A) : list event :=
  x.1.1.
Definition final_state {A} (x : list event * state * result A) : state :=
  x.1.2.
Definition outcome {A} (x : list event * state * result A) : result A :=
  x.2.

(** *** Library calls *)

(** [logger.info(msg)] *)
Definition logger_info (logger : Logger) (msg : string) : M unit :=
  emit (EvLog logger msg).

(** [os.getenv(key)] *)
Definition os_getenv (key : string) : M (option string) :=
  fun w s => ([], s, Ok (environ w !! key)).

(** [S3Path(path).region] *)
Definition S3Path_region (path : string) : M string :=
  fun w s => ([], s, s3path_region w path).

(** [storage_svc.copy(src, dst)] *)
Definition storage_copy (svc : S3StorageService) (src dst : string) : M unit :=
  fun w s => ([EvS3Copy (svc_region svc) src dst], s,
              s3_copy w (svc_region svc) src dst).

(** [subprocess.run(cmd, shell=True)]: returns the completed process, whose
    return code is whatever the command exited with; it does not raise on a
    non-zero return code. *)
Definition subprocess_run (cmd : string) : M Z :=
  fun w s => ([EvShell cmd], s, Ok (shell_returncode w cmd)).

(** [signal.signal(sig, h)]; the module only installs a SIGINT handler. *)
Definition signal_signal (sig : signal) (h : signal -> result unit) : M unit :=
  fun _ s =>
    ([EvSignal sig],
     match sig with
     | SIGINT => set_sigint_handler h s
     | SIGTERM => s
     end,
     Ok tt).

(** [psutil.net_io_counters()] *)
Definition net_io_counters : M snetio :=
  fun w s =>
    ([EvNetIoCounters], count_net_sample s,
     Ok (net_counters w (net_samples s))).

(** The interpreter runs the installed SIGINT handler in the thread that
    waits; Python's default raises KeyboardInterrupt. *)
Definition deliver_sigint (s : state) : result unit :=
  match sigint_handler s with
  | Some h => h SIGINT
  | None => Raise KeyboardInterrupt
  end.

(** [proc.communicate(timeout=timeout)]: when the child exits it is reaped
    and its return code is kept in the [Popen] object; when the timeout
    expires TimeoutExpired is raised; when SIGINT arrives during the wait
    the handler runs. *)
Definition communicate (proc : Popen) (timeout : option Z) : M unit :=
  fun w s =>
    match child_wait w timeout with
    | ChildExits =>
        ([EvCommunicate timeout],
         set_returncode (Some (child_returncode w)) s, Ok tt)
    | TimerExpires => ([EvCommunicate timeout], s, Raise TimeoutExpired)
    | SigintArrives => ([EvCommunicate timeout], s, deliver_sigint s)
    end.

(** [proc.terminate()]: [send_signal] polls the child, sends SIGTERM to it
    when it has not ended, and passes over the error of a child that ended
    in between; it does not raise. *)
Definition terminate (proc : Popen) : M unit := emit (EvTerminate (pid proc)).

(** [os.killpg(pgid, sig)] raises when the signal cannot be delivered. *)
Definition os_killpg (pgid : Z) (sig : signal) : M unit :=
  fun w s =>
    ([EvKillpg pgid sig], s,
     match killpg_finds w pgid sig with
     | Delivered => Ok tt
     | NoSuchGroup => Raise ProcessLookupError
     | NotPermitted => Raise PermissionError
     end).

(** The wait that [proc.wait()] and the exit of the context manager share:
    a child that has been reaped gives its return code at once; otherwise
    the call blocks until the child ends, or until SIGINT arrives and the
    handler raises (after a handler that returns, the wait goes on). *)
Definition reap (proc : Popen) : state -> world -> state * result Z :=
  fun s w =>
    match returncode s with
    | Some rc => (s, Ok rc)
    | None =>
        match closing_wait w with
        | ChildReaped =>
            (set_returncode (Some (child_returncode w)) s,
             Ok (child_returncode w))
        | SigintWhileClosing =>
            match deliver_sigint s with
            | Raise e => (s, Raise e)
            | Ok _ =>
                (set_returncode (Some (child_returncode w)) s,
                 Ok (child_returncode w))
            end
        end
    end.

(** [proc.wait()] *)
Definition wait (proc : Popen) : M Z :=
  fun w s => let '(s', r) := reap proc s w in ([EvWait (pid proc)], s', r).

(** [sys.exit(code)] *)
Definition sys_exit {A} (code : Z) : M A := raise (SystemExit code).

(** [with subprocess.Popen(cmd, shell=True,
    start_new_session=start_new_session) as proc: body].  With
    [start_new_session] the child calls setsid() before it runs the command,
    so that its process group is its own pid; without it the child stays in
    the group of the launcher.  The exit of the context manager runs however
    the body ends: it waits for the child, and only when that wait returns
    does the body's outcome, exception or not, go on; an exception raised
    in the wait takes its place. *)
Definition with_Popen {A} (cmd : string) (start_new_session : bool)
    (body : Popen -> M A) : M A :=
  fun w s =>
    let proc := {| pid := child_pid w |} in
    let group := if start_new_session then child_pid w else launcher_pgid w in
    let '(t, s', r) :=
      body proc w (set_child_group group (set_returncode None s)) in
    let '(s'', closed) := reap proc s' w in
    (EvPopen cmd :: t ++ [EvPopenExit (pid proc)], s'',
     match closed with
     | Ok _ => r
     | Raise e => Raise e
     end).

(** Truth value of an [Optional[str]]: [None] and the empty string are
    false. *)
Definition truthy (v : option string) : bool :=
  match v with
  | Some s => negb (String.eqb s "")
  | None => false
  end.

(** ** Signal Handler *)

(** [def handler(signum, frame): raise InterruptedError] *)
Definition handler (signum : signal) : result unit := Raise InterruptedError.

(** ** Executable Downloader *)

Definition _download_executables (repository_path package_name : string)
  : M unit :=
  s3_region ← S3Path_region repository_path;
  '(team, exe_name) ← lift (_parse_package_name package_name);
  let exe_local_path := DEFAULT_EXE_FOLDER +:+ exe_name in
  let exe_s3_path := repository_path +:+ package_name in
  let storage_svc := {| svc_region := s3_region |} in
  storage_copy storage_svc exe_s3_path exe_local_path.

(** ** Process Runner *)

Definition run (repository_path exe_path package_name cmd : string)
    (logger : Logger) (timeout : option Z) : M unit :=
  (if negb (String.eqb (Str.upper repository_path) "LOCAL") then
     logger_info logger "Downloading executables ...";;
     _download_executables repository_path package_name
   else
     logger_info logger "Local repository, skip download ...");;
  '(team, exe_name) ← lift (_parse_package_name package_name);
  _ ← subprocess_run ("chmod +x " +:+ exe_path +:+ "/" +:+ exe_name);
  let cmd :=
    if String.eqb (Str.upper repository_path) "LOCAL"
    then exe_path +:+ cmd else cmd in
  logger_info logger ("Running cmd: " +:+ cmd +:+ " ...");;
  signal_signal SIGINT handler;;
  with_Popen cmd true (fun proc =>
    net_start ← net_io_counters;
    try_except (communicate proc timeout)
      (fun e =>
         match e with
         | TimeoutExpired | InterruptedError => true
         | _ => false
         end)
      (fun e =>
         terminate proc;;
         os_killpg (pid proc) SIGTERM;;
         raise e);;
    return_code ← wait proc;
    net_end ← net_io_counters;
    logger_info logger
      ("Net usage: "
       +:+ Str.of_Z (bytes_sent net_end - bytes_sent net_start)
       +:+ " bytes sent, "
       +:+ Str.of_Z (bytes_recv net_end - bytes_recv net_start)
       +:+ " bytes received");;
    if negb (return_code =? 0) then
      logger_info logger
        ("Subprocess returned non-zero return code: "
         +:+ Str.of_Z return_code);;
      sys_exit return_code
    else mret tt).

(** ** Configuration Resolver *)

Definition _read_config (logger : Logger) (config_name : string)
    (argument : option string) (env_var default_val : string)
  : M (option string) :=
  if truthy argument then
    logger_info logger
      ("Read " +:+ config_name +:+ " from program arguments...");;
    mret argument
  else
    v ← os_getenv env_var;
    if truthy v then
      logger_info logger
        ("Read " +:+ config_name +:+ " from environment variables...");;
      os_getenv env_var
    else
      logger_info logger
        ("Read " +:+ config_name +:+ " from default value...");;
      mret (Some default_val).

(** ** Vocabulary for the properties *)

(** Modelled from the spec: the CLI Entry Point, which calls [run] and whose
    return ends the process, is not part of the source file.  By the
    specification the exit status of the program is 0 when the Process
    Runner returns, the code handed to the exit propagation step when it
    exits, and a non-zero status when a fatal error is raised.  The status is
    the integer given to [sys.exit], as Python has it; what the operating
    system keeps of it is not modelled. *)
Definition launcher_exit_status (r : result unit) : Z :=
  match r with
  | Ok _ => 0
  | Raise (SystemExit code) => code
  | Raise _ => 1
  end.

(** The steps before the launch succeed: the artifact is local or its
    download returns, and the package name parses. *)
Definition downloaded (w : world) (repository_path package_name : string)
  : Prop :=
  exists region team exe_name,
    s3path_region w repository_path = Ok region /\
    _parse_package_name package_name = Ok (team, exe_name) /\
    s3_copy w region (repository_path +:+ package_name)
      (DEFAULT_EXE_FOLDER +:+ exe_name) = Ok tt.

Definition launchable (w : world) (repository_path package_name : string)
  : Prop :=
  (Str.upper repository_path = "LOCAL"
   \/ downloaded w repository_path package_name)
  /\ is_ok (_parse_package_name package_name) = true.

(** The commands given to [Popen], in order. *)
Definition launched_cmds (t : list event) : list string :=
  omap (fun e => match e with EvPopen c => Some c | _ => None end) t.

(** The local paths that the storage client was asked to write. *)
Definition download_targets (t : list event) : list string :=
  omap (fun e => match e with EvS3Copy _ _ dst => Some dst | _ => None end) t.

(** [s] without its prefix [p], when it has that prefix. *)
Fixpoint strip_prefix (p s : string) : option string :=
  match p, s with
  | EmptyString, _ => Some s
  | String a p', String b s' =>
      if Ascii.eqb a b then strip_prefix p' s' else None
  | String _ _, EmptyString => None
  end.

(** The paths named by the [chmod +x] shell commands. *)
Definition chmod_targets (t : list event) : list string :=
  omap (fun e =>
          match e with
          | EvShell c => strip_prefix "chmod +x " c
          | _ => None
          end) t.

(** The log lines that report the network usage. *)
Definition is_net_usage_log (e : event) : bool :=
  match e with
  | EvLog _ msg => String.prefix "Net usage: " msg
  | _ => false
  end.


(** Path names are resolved with a run of slashes counting as one slash:
    [squeeze] is the path with every such run reduced to one, and two path
    names are the same file or directory, as far as their text tells, when
    they squeeze to the same string. *)
Fixpoint squeeze (s : string) : string :=
  match s with
  | EmptyString => EmptyString
  | String c r =>
      match r with
      | String d _ =>
          if Ascii.eqb c Str.slash && Ascii.eqb d Str.slash
          then squeeze r else String c (squeeze r)
      | EmptyString => String c EmptyString
      end
  end.

Definition same_path (p q : string) : Prop := squeeze p = squeeze q.

(** The same world with other return codes for the shell commands run by
    [subprocess.run]. *)
Definition with_shell_returncode (w : world) (rc : string -> Z) : world :=
  {| environ := environ w;
     s3path_region := s3path_region w;
     s3_copy := s3_copy w;
     shell_returncode := rc;
     child_pid := child_pid w;
     child_wait := child_wait w;
     child_returncode := child_returncode w;
     net_counters := net_counters w;
     launcher_pgid := launcher_pgid w;
     killpg_finds := killpg_finds w;
     closing_wait := closing_wait w |}.

(** The same world with another process environment. *)
Definition with_environ (w : world) (env : gmap string string) : world :=
  {| environ := env;
     s3path_region := s3path_region w;
     s3_copy := s3_copy w;
     shell_returncode := shell_returncode w;
     child_pid := child_pid w;
     child_wait := child_wait w;
     child_returncode := child_returncode w;
     net_counters := net_counters w;
     launcher_pgid := launcher_pgid w;
     killpg_finds := killpg_finds w;
     closing_wait := closing_wait w |}.

(** The samples of the network counters taken. *)
Definition is_net_sample (e : event) : bool :=
  match e with EvNetIoCounters => true | _ => false end.

(** A configuration value that counts as given: a string, and not the
    empty one; and one that does not: None or the empty string. *)
Definition present (v : option string) (x : string) : Prop :=
  v = Some x /\ x <> "".

Definition absent (v : option string) : Prop :=
  v = None \/ v = Some "".

(** The command that [run] hands to the shell. *)
Definition effective_cmd (repository_path exe_path cmd : string) : string :=
  if String.eqb (Str.upper repository_path) "LOCAL"
  then exe_path +:+ cmd else cmd.

(** What a launchable invocation does, written out: after the events [acq]
    of the acquisition step come the permission step, the launch of [cmd']
    and the wait, and then one of three endings, by the way the wait ends.
    [run_local] and [run_remote] prove that [run] does exactly this. *)
Definition supervised (acq : list event) (w : world) (s : state)
    (exe_path exe_name cmd' : string) (logger : Logger) (timeout : option Z)
  : list event * state * result unit :=
  let p := child_pid w in
  let n := net_samples s in
  let rc := child_returncode w in
  let head :=
    acq ++ [EvShell ("chmod +x " +:+ exe_path +:+ "/" +:+ exe_name);
            EvLog logger ("Running cmd: " +:+ cmd' +:+ " ...");
            EvSignal SIGINT; EvPopen cmd'; EvNetIoCounters;
            EvCommunicate timeout] in
  let final k code :=
    {| sigint_handler := Some handler;
       net_samples := k;
       returncode := code;
       child_group := Some p |} in
  let aborted trigger :=
    (head ++ [EvTerminate p; EvKillpg p SIGTERM; EvPopenExit p],
     final (S n)
       (match closing_wait w with
        | ChildReaped => Some rc
        | SigintWhileClosing => None
        end),
     match closing_wait w with
     | SigintWhileClosing => Raise InterruptedError
     | ChildReaped =>
         match killpg_finds w p SIGTERM with
         | Delivered => Raise trigger
         | NoSuchGroup => Raise ProcessLookupError
         | NotPermitted => Raise PermissionError
         end
     end) in
  match child_wait w timeout with
  | ChildExits =>
      (head ++
       [EvWait p; EvNetIoCounters;
        EvLog logger
          ("Net usage: "
           +:+ Str.of_Z (bytes_sent (net_counters w (S n))
                         - bytes_sent (net_counters w n))
           +:+ " bytes sent, "
           +:+ Str.of_Z (bytes_recv (net_counters w (S n))
                         - bytes_recv (net_counters w n))
           +:+ " bytes received")] ++
       (if rc =? 0 then []
        else [EvLog logger
                ("Subprocess returned non-zero return code: "
                 +:+ Str.of_Z rc)]) ++
       [EvPopenExit p],
       final (S (S n)) (Some rc),
       if rc =? 0 then Ok tt else Raise (SystemExit rc))
  | TimerExpires => aborted TimeoutExpired
  | SigintArrives => aborted InterruptedError
  end.

(** ** A concrete world, for examples *)

Module Demo.

Definition counters (n : nat) : snetio :=
  {| bytes_sent := 100 * Z.of_nat n; bytes_recv := 10 * Z.of_nat n |}.

(** A child that ends in the way [how] with return code [rc]; storage and
    chmod succeed; the environment sets ONEDOCKER_EXE_PATH only. *)
Definition world_of (how : wait_outcome) (rc : Z) : world :=
  {| environ := {[ "ONEDOCKER_EXE_PATH" := "/env/bin/" ]};
     s3path_region := fun _ => Ok "us-west-1";
     s3_copy := fun _ _ _ => Ok tt;
     shell_returncode := fun _ => 0;
     child_pid := 4242;
     child_wait := fun _ => how;
     child_returncode := rc;
     net_counters := counters;
     launcher_pgid := 4000;
     killpg_finds := fun _ _ => Delivered;
     closing_wait := ChildReaped |}.

Definition fresh : state :=
  {| sigint_handler := None;
     net_samples := 0;
     returncode := None;
     child_group := None |}.

(** A remote repository path. *)
Definition remote : string := "https://repo.example.com/".

(** A world whose storage layer is given: [region] derives the region of a
    repository path, [copy] is the outcome of every copy. *)
Definition world_with_storage (region : string -> result string)
    (copy : result unit) : world :=
  {| environ := ∅;
     s3path_region := region;
     s3_copy := fun _ _ _ => copy;
     shell_returncode := fun _ => 0;
     child_pid := 4242;
     child_wait := fun _ => ChildExits;
     child_returncode := 0;
     net_counters := counters;
     launcher_pgid := 4000;
     killpg_finds := fun _ _ => Delivered;
     closing_wait := ChildReaped |}.


End Demo.

(** ** Facts about [split] *)

Section SplitFacts.

Variable sep : ascii.

Lemma split_nonempty s : Str.split sep s <> [].
Proof.
  induction s as [|c r IH]; simpl; [discriminate|].
  destruct (Ascii.eqb c sep); [discriminate|].
  destruct (Str.split sep r); [contradiction|discriminate].
Qed.

Lemma split_length s :
  length (Str.split sep s) = S (Str.count sep s).
Proof.
  induction s as [|c r IH]; simpl; [reflexivity|].
  destruct (Ascii.eqb c sep); simpl; [now rewrite IH|].
  destruct (Str.split sep r) eqn:E; simpl in *; [discriminate|exact IH].
Qed.

Lemma count_contains s :
  Str.contains sep s = false <-> Str.count sep s = O.
Proof.
  induction s as [|c r IH]; simpl; [tauto|].
  destruct (Ascii.eqb c sep); simpl; [split; discriminate|exact IH].
Qed.

(** A string without the separator is a single field. *)
Lemma split_no_sep s :
  Str.contains sep s = false -> Str.split sep s = [s].
Proof.
  induction s as [|c r IH]; simpl; [reflexivity|].
  destruct (Ascii.eqb c sep); simpl; [discriminate|].
  intros H. now rewrite (IH H).
Qed.

(** A first field without the separator, then the separator: the first
    field is split off and the rest is split on its own. *)
Lemma split_app a b :
  Str.contains sep a = false ->
  Str.split sep (a +:+ String sep b) = a :: Str.split sep b.
Proof.
  induction a as [|c r IH]; simpl.
  - intros _. now rewrite Ascii.eqb_refl.
  - destruct (Ascii.eqb c sep); simpl; [discriminate|].
    intros H. now rewrite (IH H).
Qed.

(** Every field of a split is free of the separator. *)
Lemma split_fields_no_sep s f :
  In f (Str.split sep s) -> Str.contains sep f = false.
Proof.
  revert f. induction s as [|c r IH]; simpl; intros f.
  - intros [<-|[]]. reflexivity.
  - destruct (Ascii.eqb c sep) eqn:Ec.
    + intros [<-|H]; [reflexivity|now apply IH].
    + destruct (Str.split sep r) as [|g gs] eqn:E.
      * intros [<-|[]]. simpl. now rewrite Ec.
      * intros [<-|H].
        -- simpl. rewrite Ec. simpl. apply IH. now left.
        -- apply IH. now right.
Qed.

End SplitFacts.

(** ** The Package Name Parser *)

Section Parser.

Local Abbreviation has_slash := (Str.contains Str.slash).

(** A name with a separator is a slash-free team, the separator, and a
    rest. *)
Lemma first_separator s :
  has_slash s = true ->
  exists a b, s = a +:+ String Str.slash b /\ has_slash a = false.
Proof.
  induction s as [|c r IH]; simpl; [discriminate|].
  destruct (Ascii.eqb c Str.slash) eqn:Ec; simpl.
  - intros _. apply Ascii.eqb_eq in Ec. subst c.
    exists EmptyString, r. split; reflexivity.
  - intros H. destruct (IH H) as (a & b & -> & Ha).
    exists (String c a), b. split; [reflexivity|].
    simpl. now rewrite Ec.
Qed.

Lemma parse_no_separator name :
  has_slash name = false -> _parse_package_name name = Raise IndexError.
Proof.
  intros H. unfold _parse_package_name.
  rewrite (split_no_sep _ _ H). reflexivity.
Qed.

(** The parser returns the first two fields of the split. *)
Lemma parse_first_two team rest :
  has_slash team = false ->
  exists exe more,
    Str.split Str.slash rest = exe :: more /\
    _parse_package_name (team +:+ String Str.slash rest) = Ok (team, exe).
Proof.
  intros H. unfold _parse_package_name.
  rewrite (split_app _ _ _ H).
  destruct (Str.split Str.slash rest) as [|exe more] eqn:E.
  - now apply split_nonempty in E.
  - exists exe, more. split; reflexivity.
Qed.

Lemma parse_with_separator name :
  has_slash name = true ->
  exists team exe, _parse_package_name name = Ok (team, exe).
Proof.
  intros H. destruct (first_separator _ H) as (a & b & -> & Ha).
  destruct (parse_first_two a b Ha) as (exe & more & _ & Hp).
  now exists a, exe.
Qed.

(** The executable name that the parser returns has no separator. *)
Lemma parsed_exe_no_slash name team exe :
  _parse_package_name name = Ok (team, exe) -> has_slash exe = false.
Proof.
  unfold _parse_package_name, py_index. intros H.
  destruct (Str.split Str.slash name !! 0%nat) eqn:E0; simpl in H; [|discriminate].
  destruct (Str.split Str.slash name !! 1%nat) eqn:E1; simpl in H; [|discriminate].
  injection H as <- <-.
  apply (split_fields_no_sep Str.slash name).
  apply list_elem_of_In. eapply list_elem_of_lookup_2. exact E1.
Qed.

(** C5, as the code has it: parsing fails, with IndexError, exactly when
    the package name has no '/' separator.  A name with an empty team or
    executable segment, or with more than one separator, parses. *)
Theorem parse_fails_iff_no_separator name :
  (_parse_package_name name = Raise IndexError <-> has_slash name = false)
  /\ is_ok (_parse_package_name name) = has_slash name.
Proof.
  destruct (has_slash name) eqn:H.
  - destruct (parse_with_separator _ H) as (team & exe & ->).
    repeat split; discriminate.
  - rewrite (parse_no_separator _ H). repeat split; reflexivity.
Qed.

(** C5, refuted as stated: "/exe" breaks the invariant (its team segment
    is empty), yet parsing it does not fail. *)
Lemma parse_empty_team_succeeds :
  ~ (_parse_package_name "/exe" = Raise IndexError
     <-> well_formed_package_name "/exe" = false).
Proof.
  intros [_ H]. specialize (H eq_refl). discriminate H.
Qed.

(** C6, as the code has it: the team is the text before the first '/' and
    the executable name is the text between the first '/' and the second,
    or the end of the name when there is no second; what follows a second
    '/' is dropped. *)
Theorem parse_returns_first_two_fields team exe rest :
  has_slash team = false ->
  has_slash exe = false ->
  _parse_package_name (team +:+ "/" +:+ exe) = Ok (team, exe)
  /\ _parse_package_name (team +:+ "/" +:+ exe +:+ "/" +:+ rest)
     = Ok (team, exe).
Proof.
  intros Ht He. unfold _parse_package_name.
  change ("/" +:+ exe +:+ "/" +:+ rest)
    with (String Str.slash (exe +:+ String Str.slash rest)).
  change ("/" +:+ exe) with (String Str.slash exe).
  rewrite !(split_app _ _ _ Ht).
  rewrite (split_no_sep _ _ He), (split_app _ _ _ He).
  split; reflexivity.
Qed.

Lemma parse_returns_first_two_fields_witness :
  _parse_package_name "teamA/toolB" = Ok ("teamA", "toolB")
  /\ _parse_package_name "teamA/toolB/c/d" = Ok ("teamA", "toolB").
Proof.
  apply (parse_returns_first_two_fields "teamA" "toolB" "c/d");
    reflexivity.
Defined.

(** C6, refuted as stated: for "a/b/c" the executable name is "b", not
    the whole "b/c" that follows the first separator. *)
Lemma parse_three_fields :
  _parse_package_name "a/b/c" = Ok ("a", "b")
  /\ _parse_package_name "a/b/c" <> Ok ("a", "b/c").
Proof. split; [reflexivity|discriminate]. Qed.

End Parser.

(** ** The Configuration Resolver *)

(** Unfolding of the monad operations, for symbolic execution. *)
Ltac unfold_m :=
  unfold mbind, mret, M_bind, M_ret, bind, ret, raise, lift, emit,
    try_except, sys_exit, logger_info, os_getenv, events, outcome,
    final_state in *.

Section ReadConfig.

Variables (logger : Logger) (config_name env_var default_val : string).
Variables (w : world) (s : state).

Lemma truthy_present v x : present v x -> truthy v = true.
Proof.
  intros [-> Hx]. simpl. apply negb_true_iff. now apply String.eqb_neq.
Qed.

Lemma truthy_absent v : absent v -> truthy v = false.
Proof. intros [->| ->]; reflexivity. Qed.

Lemma present_or_absent v : (exists x, present v x) \/ absent v.
Proof.
  destruct v as [x|]; [|right; now left].
  destruct (String.eqb_spec x ""); [subst; right; now right|].
  left. now exists x.
Qed.

Lemma read_config_argument argument a :
  present argument a ->
  _read_config logger config_name argument env_var default_val w s
  = ([EvLog logger ("Read " +:+ config_name +:+ " from program arguments...")],
     s, Ok (Some a)).
Proof.
  intros H. unfold _read_config. rewrite (truthy_present _ _ H).
  destruct H as [-> _]. reflexivity.
Qed.

Lemma read_config_environment argument e :
  absent argument ->
  present (environ w !! env_var) e ->
  _read_config logger config_name argument env_var default_val w s
  = ([EvLog logger
        ("Read " +:+ config_name +:+ " from environment variables...")],
     s, Ok (Some e)).
Proof.
  intros Ha He. unfold _read_config. rewrite (truthy_absent _ Ha).
  unfold_m. rewrite (truthy_present _ _ He).
  destruct He as [-> _]. reflexivity.
Qed.

Lemma read_config_default argument :
  absent argument ->
  absent (environ w !! env_var) ->
  _read_config logger config_name argument env_var default_val w s
  = ([EvLog logger ("Read " +:+ config_name +:+ " from default value...")],
     s, Ok (Some default_val)).
Proof.
  intros Ha He. unfold _read_config. rewrite (truthy_absent _ Ha).
  unfold_m. rewrite (truthy_absent _ He). reflexivity.
Qed.

End ReadConfig.

(** C3: the resolver returns the argument when it is present; otherwise the
    value of the environment variable when that is set and not empty;
    otherwise the default.  Each tier is chosen whatever the lower tiers
    hold, and the one log line written names the configuration key and the
    source that was used. *)
Theorem read_config_precedence
    (logger : Logger) (config_name env_var default_val : string)
    (argument : option string) (w : world) (s : state) :
  let x := _read_config logger config_name argument env_var default_val w s in
  (forall a, present argument a ->
     outcome x = Ok (Some a) /\
     events x =
       [EvLog logger ("Read " +:+ config_name +:+ " from program arguments...")])
  /\ (forall e, absent argument -> present (environ w !! env_var) e ->
     outcome x = Ok (Some e) /\
     events x =
       [EvLog logger
          ("Read " +:+ config_name +:+ " from environment variables...")])
  /\ (absent argument -> absent (environ w !! env_var) ->
     outcome x = Ok (Some default_val) /\
     events x =
       [EvLog logger ("Read " +:+ config_name +:+ " from default value...")]).
Proof.
  intros x. subst x. repeat split.
  - now rewrite (read_config_argument _ _ _ _ _ _ _ _ H).
  - now rewrite (read_config_argument _ _ _ _ _ _ _ _ H).
  - now rewrite (read_config_environment _ _ _ _ _ _ _ _ H H0).
  - now rewrite (read_config_environment _ _ _ _ _ _ _ _ H H0).
  - now rewrite (read_config_default _ _ _ _ _ _ _ H H0).
  - now rewrite (read_config_default _ _ _ _ _ _ _ H H0).
Qed.

(** C7: the resolver is total and its value is always a string, never
    None: in every world, for every argument, variable name and default,
    it returns normally with some string, and leaves the state as it was. *)
Theorem read_config_total
    (logger : Logger) (config_name env_var default_val : string)
    (argument : option string) (w : world) (s : state) :
  exists v : string,
    outcome (_read_config logger config_name argument env_var default_val w s)
    = Ok (Some v)
    /\ final_state
         (_read_config logger config_name argument env_var default_val w s)
       = s.
Proof.
  destruct (present_or_absent argument) as [[a Ha]|Ha].
  - exists a. now rewrite (read_config_argument _ _ _ _ _ _ _ _ Ha).
  - destruct (present_or_absent (environ w !! env_var)) as [[e He]|He].
    + exists e. now rewrite (read_config_environment _ _ _ _ _ _ _ _ Ha He).
    + exists default_val.
      now rewrite (read_config_default _ _ _ _ _ _ _ Ha He).
Qed.

Lemma read_config_precedence_witness :
  let w := Demo.world_of ChildExits 0 in
  let read arg var := _read_config "log" "exe_path" arg var "D" w Demo.fresh in
  (outcome (read (Some "A") "ONEDOCKER_EXE_PATH") = Ok (Some "A") /\
   events (read (Some "A") "ONEDOCKER_EXE_PATH")
   = [EvLog "log" "Read exe_path from program arguments..."])
  /\ (outcome (read None "ONEDOCKER_EXE_PATH") = Ok (Some "/env/bin/") /\
      events (read None "ONEDOCKER_EXE_PATH")
      = [EvLog "log" "Read exe_path from environment variables..."])
  /\ (outcome (read (Some "") "ONEDOCKER_REPOSITORY_PATH") = Ok (Some "D") /\
      events (read (Some "") "ONEDOCKER_REPOSITORY_PATH")
      = [EvLog "log" "Read exe_path from default value..."]).
Proof.
  intros w read. subst read. cbv beta. split; [|split].
  - apply (proj1 (read_config_precedence "log" "exe_path"
                    "ONEDOCKER_EXE_PATH" "D" (Some "A") w Demo.fresh) "A").
    split; [reflexivity|discriminate].
  - apply (proj1 (proj2 (read_config_precedence "log" "exe_path"
                    "ONEDOCKER_EXE_PATH" "D" None w Demo.fresh)) "/env/bin/").
    + left; reflexivity.
    + split; [vm_compute; reflexivity|discriminate].
  - apply (proj2 (proj2 (read_config_precedence "log" "exe_path"
                    "ONEDOCKER_REPOSITORY_PATH" "D" (Some "") w Demo.fresh))).
    + right; reflexivity.
    + left; vm_compute; reflexivity.
Defined.

(** ** The Process Runner *)

Ltac exec_run :=
  unfold run, _download_executables, with_Popen, communicate, wait, reap,
    net_io_counters, signal_signal, subprocess_run, storage_copy,
    S3Path_region, terminate, os_killpg, supervised, effective_cmd;
  unfold_m.

Ltac step := cbn -[String.append Z.sub].

Section RunFacts.

Variables (repository_path exe_path package_name cmd : string).
Variables (logger : Logger) (timeout : option Z) (w : world) (s : state).

(** A launchable invocation is local, or remote with a download that
    returns; in both cases the package name parses. *)
Lemma launchable_cases :
  launchable w repository_path package_name ->
  exists team exe_name,
    _parse_package_name package_name = Ok (team, exe_name) /\
    (String.eqb (Str.upper repository_path) "LOCAL" = true \/
     String.eqb (Str.upper repository_path) "LOCAL" = false /\
     exists region,
       s3path_region w repository_path = Ok region /\
       s3_copy w region (repository_path +:+ package_name)
         (DEFAULT_EXE_FOLDER +:+ exe_name) = Ok tt).
Proof.
  intros [Hacq Hparse].
  destruct (_parse_package_name package_name) as [[team exe_name]|] eqn:Hp;
    [|discriminate].
  exists team, exe_name. split; [reflexivity|].
  destruct (String.eqb_spec (Str.upper repository_path) "LOCAL") as [|Hne];
    [now left|right].
  split; [reflexivity|].
  destruct Hacq as [|(region & t & e & Hr & Ht & Hc)]; [contradiction|].
  rewrite Hp in Ht. injection Ht as <- <-. now exists region.
Qed.

Variables (team exe_name : string).
Hypothesis Hparse : _parse_package_name package_name = Ok (team, exe_name).

Lemma run_local :
  String.eqb (Str.upper repository_path) "LOCAL" = true ->
  run repository_path exe_path package_name cmd logger timeout w s
  = supervised [EvLog logger "Local repository, skip download ..."] w s
      exe_path exe_name (exe_path +:+ cmd) logger timeout.
Proof.
  intros Hloc. exec_run. rewrite Hloc, Hparse. step.
  destruct (child_wait w timeout); step;
    [ destruct (child_returncode w =? 0); reflexivity
    | destruct (killpg_finds w (child_pid w) SIGTERM); step;
      destruct (closing_wait w); reflexivity .. ].
Qed.

Lemma run_remote region :
  String.eqb (Str.upper repository_path) "LOCAL" = false ->
  s3path_region w repository_path = Ok region ->
  s3_copy w region (repository_path +:+ package_name)
    (DEFAULT_EXE_FOLDER +:+ exe_name) = Ok tt ->
  run repository_path exe_path package_name cmd logger timeout w s
  = supervised
      [EvLog logger "Downloading executables ...";
       EvS3Copy region (repository_path +:+ package_name)
         (DEFAULT_EXE_FOLDER +:+ exe_name)] w s
      exe_path exe_name cmd logger timeout.
Proof.
  intros Hnl Hr Hc. exec_run. rewrite Hnl. step.
  rewrite Hr, Hparse. step. rewrite Hc. step.
  destruct (child_wait w timeout); step;
    [ destruct (child_returncode w =? 0); reflexivity
    | destruct (killpg_finds w (child_pid w) SIGTERM); step;
      destruct (closing_wait w); reflexivity .. ].
Qed.

End RunFacts.

Section RunClaims.

Variables (repository_path exe_path package_name cmd : string).
Variables (logger : Logger) (timeout : option Z) (w : world) (s : state).

Local Abbreviation the_run :=
  (run repository_path exe_path package_name cmd logger timeout w s).

(** Every launchable invocation follows [supervised], after the events of
    one of the two acquisition paths. *)
Lemma run_launchable :
  launchable w repository_path package_name ->
  exists acq team exe_name,
    _parse_package_name package_name = Ok (team, exe_name) /\
    the_run = supervised acq w s exe_path exe_name
                (effective_cmd repository_path exe_path cmd)
                logger timeout /\
    (String.eqb (Str.upper repository_path) "LOCAL" = true /\
     acq = [EvLog logger "Local repository, skip download ..."]
     \/
     String.eqb (Str.upper repository_path) "LOCAL" = false /\
     exists region,
       s3path_region w repository_path = Ok region /\
       acq = [EvLog logger "Downloading executables ...";
              EvS3Copy region (repository_path +:+ package_name)
                (DEFAULT_EXE_FOLDER +:+ exe_name)]).
Proof.
  intros Hl.
  destruct (launchable_cases _ _ _ Hl)
    as (team & exe_name & Hp & [Hloc|(Hnl & region & Hr & Hc)]).
  - eexists _, team, exe_name. split; [exact Hp|]. split.
    + rewrite (run_local _ _ _ _ _ _ _ _ _ _ Hp Hloc).
      unfold effective_cmd. now rewrite Hloc.
    + left. split; [exact Hloc|reflexivity].
  - eexists _, team, exe_name. split; [exact Hp|]. split.
    + rewrite (run_remote _ _ _ _ _ _ _ _ _ _ Hp region Hnl Hr Hc).
      unfold effective_cmd. now rewrite Hnl.
    + right. split; [exact Hnl|]. exists region. split; [exact Hr|reflexivity].
Qed.

(** A launchable invocation starts exactly one child, with the effective
    command. *)
Lemma run_launched_cmds :
  launchable w repository_path package_name ->
  launched_cmds (events the_run)
  = [effective_cmd repository_path exe_path cmd].
Proof.
  intros Hl.
  destruct (run_launchable Hl) as (acq & team & exe & _ & -> & Hacq).
  unfold supervised, events.
  destruct Hacq as [[_ ->]|(_ & region & _ & ->)];
    destruct (child_wait w timeout); try reflexivity;
    destruct (child_returncode w =? 0); reflexivity.
Qed.

(** When the child completes with a non-zero code, the code is logged and
    handed to [sys.exit]. *)
Lemma run_nonzero_exit c :
  launchable w repository_path package_name ->
  child_wait w timeout = ChildExits ->
  child_returncode w = c ->
  c <> 0 ->
  In (EvLog logger
        ("Subprocess returned non-zero return code: " +:+ Str.of_Z c))
     (events the_run)
  /\ outcome the_run = Raise (SystemExit c).
Proof.
  intros Hl Hw Hrc Hc.
  destruct (run_launchable Hl) as (acq & team & exe & _ & -> & _).
  unfold supervised. rewrite Hw, Hrc.
  apply Z.eqb_neq in Hc. rewrite Hc. unfold events, outcome. step.
  split; [|reflexivity].
  rewrite !in_app_iff. right. simpl. tauto.
Qed.

Lemma run_zero_exit :
  launchable w repository_path package_name ->
  child_wait w timeout = ChildExits ->
  child_returncode w = 0 ->
  outcome the_run = Ok tt.
Proof.
  intros Hl Hw Hrc.
  destruct (run_launchable Hl) as (acq & team & exe & _ & -> & _).
  unfold supervised. rewrite Hw, Hrc. reflexivity.
Qed.

(** C1: when the child completes with exit code 0, [run] returns normally
    and the launcher's exit status is 0; when it completes with a non-zero
    code c, [run] logs c and ends the launcher with exit status c. *)
Theorem run_propagates_exit_code :
  launchable w repository_path package_name ->
  child_wait w timeout = ChildExits ->
  (child_returncode w = 0 ->
     outcome the_run = Ok tt /\ launcher_exit_status (outcome the_run) = 0)
  /\ (forall c, c <> 0 -> child_returncode w = c ->
     In (EvLog logger
           ("Subprocess returned non-zero return code: " +:+ Str.of_Z c))
        (events the_run)
     /\ outcome the_run = Raise (SystemExit c)
     /\ launcher_exit_status (outcome the_run) = c).
Proof.
  intros Hl Hw. split.
  - intros Hrc. rewrite (run_zero_exit Hl Hw Hrc). split; reflexivity.
  - intros c Hc Hrc.
    destruct (run_nonzero_exit c Hl Hw Hrc Hc) as [Hlog Hout].
    rewrite Hout. repeat split. exact Hlog.
Qed.

(** C10: a negative return code, which is what the wait yields for a child
    killed by a signal, takes the same branch as any other non-zero code:
    it is logged, with its sign, and handed to [sys.exit] as it is. *)
Theorem run_propagates_negative_code c :
  launchable w repository_path package_name ->
  child_wait w timeout = ChildExits ->
  child_returncode w = c ->
  c < 0 ->
  In (EvLog logger
        ("Subprocess returned non-zero return code: " +:+ Str.of_Z c))
     (events the_run)
  /\ outcome the_run = Raise (SystemExit c)
  /\ launcher_exit_status (outcome the_run) = c.
Proof.
  intros Hl Hw Hrc Hneg.
  assert (Hc : c <> 0) by lia.
  destruct (run_nonzero_exit c Hl Hw Hrc Hc) as [Hlog Hout].
  rewrite Hout. repeat split. exact Hlog.
Qed.



(** C4, as the code has it: for the sentinel "LOCAL", in any letter case,
    the command launched is [exe_path] immediately followed by [cmd],
    with nothing put between them; for any other repository path it is
    [cmd] as given. *)
Theorem run_effective_cmd :
  launchable w repository_path package_name ->
  (Str.upper repository_path = "LOCAL" ->
     launched_cmds (events the_run) = [exe_path +:+ cmd])
  /\ (Str.upper repository_path <> "LOCAL" ->
     launched_cmds (events the_run) = [cmd]).
Proof.
  intros Hl. rewrite (run_launched_cmds Hl).
  unfold effective_cmd. split; intros H.
  - apply String.eqb_eq in H. now rewrite H.
  - apply String.eqb_neq in H. now rewrite H.
Qed.

(** C8: the result of the permission step is not looked at: with any other
    return codes for the chmod command, [run] produces the same events,
    the same state and the same outcome; and a launchable invocation
    launches its command whatever chmod returned. *)
Theorem run_ignores_chmod_result (rc : string -> Z) :
  run repository_path exe_path package_name cmd logger timeout
    (with_shell_returncode w rc) s
  = the_run
  /\ (launchable w repository_path package_name ->
      launched_cmds
        (events (run repository_path exe_path package_name cmd logger
                   timeout (with_shell_returncode w rc) s))
      = [effective_cmd repository_path exe_path cmd]).
Proof.
  assert (Heq :
    run repository_path exe_path package_name cmd logger timeout
      (with_shell_returncode w rc) s = the_run).
  { destruct w as [env region copy sh cpid cwait crc net].
    unfold with_shell_returncode. exec_run.
    destruct (String.eqb (Str.upper repository_path) "LOCAL");
      destruct (_parse_package_name package_name) as [[team exe_name]|];
      step; try reflexivity;
        (destruct (cwait timeout); step;
         [ destruct (crc =? 0); reflexivity
         | destruct (killpg_finds0 cpid SIGTERM); step;
           destruct closing_wait0; reflexivity .. ]). }
  split; [exact Heq|].
  intros Hl. rewrite Heq. exact (run_launched_cmds Hl).
Qed.

End RunClaims.

(** ** The claims on concrete invocations *)

Module Examples.

Import Demo.

Lemma local_launchable how rc :
  launchable (world_of how rc) "local" "team/myprog".
Proof. split; [left; reflexivity|reflexivity]. Qed.

Lemma remote_launchable how rc :
  launchable (world_of how rc) remote "teamA/toolB".
Proof.
  split; [right|reflexivity].
  exists "us-west-1", "teamA", "toolB". repeat split; reflexivity.
Qed.


End Examples.

Lemma run_propagates_exit_code_witness :
  let run_with rc :=
    run Demo.remote "/opt/bin" "teamA/toolB" "/opt/bin/toolB --x" "log"
      (Some 30) (Demo.world_of ChildExits rc) Demo.fresh in
  (outcome (run_with 0) = Ok tt
   /\ launcher_exit_status (outcome (run_with 0)) = 0)
  /\ (In (EvLog "log" "Subprocess returned non-zero return code: 7")
         (events (run_with 7))
      /\ outcome (run_with 7) = Raise (SystemExit 7)
      /\ launcher_exit_status (outcome (run_with 7)) = 7).
Proof.
  intros run_with. subst run_with. cbv beta. split.
  - apply (proj1 (run_propagates_exit_code Demo.remote "/opt/bin"
                    "teamA/toolB" "/opt/bin/toolB --x" "log" (Some 30)
                    (Demo.world_of ChildExits 0) Demo.fresh
                    (Examples.remote_launchable ChildExits 0) eq_refl)).
    reflexivity.
  - apply (proj2 (run_propagates_exit_code Demo.remote "/opt/bin"
                    "teamA/toolB" "/opt/bin/toolB --x" "log" (Some 30)
                    (Demo.world_of ChildExits 7) Demo.fresh
                    (Examples.remote_launchable ChildExits 7) eq_refl) 7).
    + lia.
    + reflexivity.
Defined.

Lemma run_propagates_negative_code_witness :
  let x :=
    run "local" "/opt/bin/" "team/myprog" "myprog --x" "log" None
      (Demo.world_of ChildExits (-15)) Demo.fresh in
  In (EvLog "log" "Subprocess returned non-zero return code: -15") (events x)
  /\ outcome x = Raise (SystemExit (-15))
  /\ launcher_exit_status (outcome x) = -15.
Proof.
  apply (run_propagates_negative_code "local" "/opt/bin/" "team/myprog"
           "myprog --x" "log" None (Demo.world_of ChildExits (-15))
           Demo.fresh (-15) (Examples.local_launchable ChildExits (-15))
           eq_refl eq_refl).
  lia.
Defined.


Lemma run_effective_cmd_witness :
  launched_cmds
    (events (run "Local" "/opt/bin" "team/myprog" "./myprog --x" "log" None
               (Demo.world_of ChildExits 0) Demo.fresh))
  = ["/opt/bin./myprog --x"]
  /\ launched_cmds
       (events (run Demo.remote "/opt/bin" "teamA/toolB" "./toolB --x"
                  "log" None (Demo.world_of ChildExits 0) Demo.fresh))
     = ["./toolB --x"].
Proof.
  split.
  - apply (proj1 (run_effective_cmd "Local" "/opt/bin" "team/myprog"
                    "./myprog --x" "log" None (Demo.world_of ChildExits 0)
                    Demo.fresh
                    (conj (or_introl eq_refl) eq_refl))).
    reflexivity.
  - apply (proj2 (run_effective_cmd Demo.remote "/opt/bin" "teamA/toolB"
                    "./toolB --x" "log" None (Demo.world_of ChildExits 0)
                    Demo.fresh (Examples.remote_launchable ChildExits 0))).
    discriminate.
Defined.

(** C4, refuted as stated: for repository path "LOCAL", executable path
    "/opt/bin" and command "./myprog --x" the command launched is
    "/opt/bin./myprog --x"; no "/" is put between the two. *)
Lemma run_local_cmd_has_no_separator :
  launched_cmds
    (events (run "LOCAL" "/opt/bin" "team/myprog" "./myprog --x" "log" None
               (Demo.world_of ChildExits 0) Demo.fresh))
  = ["/opt/bin./myprog --x"]
  /\ launched_cmds
       (events (run "LOCAL" "/opt/bin" "team/myprog" "./myprog --x" "log" None
                  (Demo.world_of ChildExits 0) Demo.fresh))
     <> ["/opt/bin/./myprog --x"].
Proof. split; [reflexivity|discriminate]. Qed.

Lemma run_ignores_chmod_result_witness :
  let w := Demo.world_of ChildExits 0 in
  run Demo.remote "/opt/bin" "teamA/toolB" "/opt/bin/toolB" "log" None
    (with_shell_returncode w (fun _ => 1)) Demo.fresh
  = run Demo.remote "/opt/bin" "teamA/toolB" "/opt/bin/toolB" "log" None
      w Demo.fresh
  /\ launched_cmds
       (events (run Demo.remote "/opt/bin" "teamA/toolB" "/opt/bin/toolB"
                  "log" None (with_shell_returncode w (fun _ => 1))
                  Demo.fresh))
     = ["/opt/bin/toolB"].
Proof.
  intros w.
  destruct (run_ignores_chmod_result Demo.remote "/opt/bin" "teamA/toolB"
              "/opt/bin/toolB" "log" None w Demo.fresh (fun _ => 1))
    as [Heq Hlaunch].
  split; [exact Heq|].
  exact (Hlaunch (Examples.remote_launchable ChildExits 0)).
Defined.

(** ** Where the download lands and what is made executable *)

Section Paths.

Local Abbreviation has_slash := (Str.contains Str.slash).

Lemma squeeze_two c d r :
  squeeze (String c (String d r))
  = if Ascii.eqb c Str.slash && Ascii.eqb d Str.slash
    then squeeze (String d r) else String c (squeeze (String d r)).
Proof. reflexivity. Qed.

(** A path without a slash is left as it is. *)
Lemma squeeze_no_slash n : has_slash n = false -> squeeze n = n.
Proof.
  induction n as [|c r IH]; [reflexivity|].
  simpl Str.contains. intros H. apply orb_false_iff in H as [Hc Hr].
  destruct r as [|d r']; [reflexivity|].
  rewrite squeeze_two, Hc, (IH Hr). reflexivity.
Qed.

(** Appending a slash-free name does not change how the directory part is
    squeezed. *)
Lemma squeeze_app_name a n :
  has_slash n = false -> squeeze (a +:+ n) = squeeze a +:+ n.
Proof.
  intros Hn. induction a as [|c r IH].
  - now apply squeeze_no_slash.
  - destruct r as [|d r'].
    + change (String c "" +:+ n) with (String c n).
      change (squeeze (String c "") +:+ n) with (String c n).
      destruct n as [|d n']; [reflexivity|].
      rewrite squeeze_two, (squeeze_no_slash _ Hn).
      simpl in Hn. apply orb_false_iff in Hn as [-> _].
      now rewrite andb_false_r.
    + change (String c (String d r') +:+ n)
        with (String c (String d (r' +:+ n))).
      rewrite !squeeze_two.
      change (String d (r' +:+ n)) with (String d r' +:+ n).
      rewrite IH.
      now destruct (Ascii.eqb c Str.slash && Ascii.eqb d Str.slash).
Qed.

Lemma append_length a b :
  String.length (a +:+ b) = (String.length a + String.length b)%nat.
Proof. induction a as [|c r IH]; simpl; [reflexivity|now rewrite IH]. Qed.

Lemma append_assoc a b c : a +:+ b +:+ c = (a +:+ b) +:+ c.
Proof.
  induction a as [|x r IH]; [reflexivity|].
  change (String x (r +:+ b +:+ c) = String x ((r +:+ b) +:+ c)).
  now rewrite IH.
Qed.

(** Two strings that agree once the same suffix is appended are equal. *)
Lemma append_inv_tail a b n : a +:+ n = b +:+ n -> a = b.
Proof.
  revert b. induction a as [|c r IH]; intros [|d b'] H.
  - reflexivity.
  - apply (f_equal String.length) in H.
    rewrite !append_length in H. simpl in H. lia.
  - apply (f_equal String.length) in H.
    rewrite !append_length in H. simpl in H. lia.
  - injection H as -> H. f_equal. now apply IH.
Qed.

(** The file [dir/name] is the file [DEFAULT_EXE_FOLDER + name] exactly
    when [dir/] is the default folder, by the text of the paths and also
    when a run of slashes counts as one. *)
Lemma same_target_iff dir name :
  has_slash name = false ->
  (dir +:+ "/" +:+ name = DEFAULT_EXE_FOLDER +:+ name
   <-> dir +:+ "/" = DEFAULT_EXE_FOLDER)
  /\ (same_path (dir +:+ "/" +:+ name) (DEFAULT_EXE_FOLDER +:+ name)
      <-> same_path (dir +:+ "/") DEFAULT_EXE_FOLDER).
Proof.
  intros Hn.
  rewrite (append_assoc dir "/" name). unfold same_path.
  rewrite !(squeeze_app_name _ _ Hn).
  split; split; intros H;
    solve [ now apply append_inv_tail in H | now rewrite H ].
Qed.

End Paths.

Section Download.

Variables (repository_path exe_path package_name cmd : string).
Variables (logger : Logger) (timeout : option Z) (w : world) (s : state).
Variables (region team exe_name : string).

Hypothesis Hremote : Str.upper repository_path <> "LOCAL".
Hypothesis Hregion : s3path_region w repository_path = Ok region.
Hypothesis Hparse : _parse_package_name package_name = Ok (team, exe_name).

(** A remote invocation whose region and package name are found asks the
    storage client for one copy, into the default folder. *)
Lemma run_download_targets dir :
  download_targets
    (events (run repository_path dir package_name cmd logger timeout w s))
  = [DEFAULT_EXE_FOLDER +:+ exe_name].
Proof.
  apply String.eqb_neq in Hremote.
  destruct (s3_copy w region (repository_path +:+ package_name)
              (DEFAULT_EXE_FOLDER +:+ exe_name)) as [[]|e] eqn:Hc.
  - rewrite (run_remote _ _ _ _ _ _ _ _ _ _ Hparse region Hremote Hregion Hc).
    unfold supervised, events.
    destruct (child_wait w timeout); try reflexivity.
    destruct (child_returncode w =? 0); reflexivity.
  - exec_run. rewrite Hremote. step. rewrite Hregion, Hparse. step.
    rewrite Hc. reflexivity.
Qed.

Lemma run_chmod_targets :
  s3_copy w region (repository_path +:+ package_name)
    (DEFAULT_EXE_FOLDER +:+ exe_name) = Ok tt ->
  chmod_targets
    (events (run repository_path exe_path package_name cmd logger timeout
               w s))
  = [exe_path +:+ "/" +:+ exe_name].
Proof.
  intros Hc. apply String.eqb_neq in Hremote.
  rewrite (run_remote _ _ _ _ _ _ _ _ _ _ Hparse region Hremote Hregion Hc).
  unfold supervised, events.
  destruct (child_wait w timeout); try reflexivity.
  destruct (child_returncode w =? 0); reflexivity.
Qed.

(** C9: in a remote invocation the download always lands at the fixed
    folder "/root/one_docker/package/" followed by the executable name,
    whatever [exe_path] is; the file made executable is [exe_path], "/",
    the executable name.  So when [exe_path] is not that fixed folder, the
    file made executable is not the file that was downloaded: the two path
    names differ, and they still differ when a run of slashes is read as
    one slash. *)
Theorem download_target_ignores_exe_path :
  let x :=
    run repository_path exe_path package_name cmd logger timeout w s in
  download_targets (events x) = [DEFAULT_EXE_FOLDER +:+ exe_name]
  /\ (forall exe_path',
        download_targets
          (events (run repository_path exe_path' package_name cmd logger
                     timeout w s))
        = download_targets (events x))
  /\ (s3_copy w region (repository_path +:+ package_name)
        (DEFAULT_EXE_FOLDER +:+ exe_name) = Ok tt ->
      chmod_targets (events x) = [exe_path +:+ "/" +:+ exe_name]
      /\ (exe_path +:+ "/" <> DEFAULT_EXE_FOLDER ->
          exe_path +:+ "/" +:+ exe_name <> DEFAULT_EXE_FOLDER +:+ exe_name)
      /\ (~ same_path (exe_path +:+ "/") DEFAULT_EXE_FOLDER ->
          ~ same_path (exe_path +:+ "/" +:+ exe_name)
              (DEFAULT_EXE_FOLDER +:+ exe_name))).
Proof.
  intros x. subst x.
  pose proof (parsed_exe_no_slash _ _ _ Hparse) as Hname.
  destruct (same_target_iff exe_path exe_name Hname) as [Htext Hsame].
  split; [apply run_download_targets|].
  split; [intros dir; now rewrite !run_download_targets|].
  intros Hc. split; [now apply run_chmod_targets|].
  split; intros Hne H; apply Hne;
    [exact (proj1 Htext H)|exact (proj1 Hsame H)].
Qed.

End Download.

Lemma download_target_ignores_exe_path_witness :
  let x dir :=
    run Demo.remote dir "teamA/toolB" "/opt/bin/toolB" "log" None
      (Demo.world_of ChildExits 0) Demo.fresh in
  download_targets (events (x "/opt/bin"))
  = ["/root/one_docker/package/toolB"]
  /\ (forall dir,
        download_targets (events (x dir))
        = download_targets (events (x "/opt/bin")))
  /\ chmod_targets (events (x "/opt/bin")) = ["/opt/bin/toolB"]
  /\ "/opt/bin/toolB" <> "/root/one_docker/package/toolB"
  /\ ~ same_path "/opt/bin/toolB" "/root/one_docker/package/toolB".
Proof.
  intros x. subst x. cbv beta.
  destruct (download_target_ignores_exe_path Demo.remote "/opt/bin"
              "teamA/toolB" "/opt/bin/toolB" "log" None
              (Demo.world_of ChildExits 0) Demo.fresh
              "us-west-1" "teamA" "toolB"
              ltac:(discriminate) eq_refl eq_refl)
    as (Hdl & Hind & Hrest).
  destruct (Hrest eq_refl) as (Hch & Htext & Hsame).
  split; [exact Hdl|].
  split; [exact Hind|].
  split; [exact Hch|].
  split; [apply Htext|apply Hsame]; discriminate.
Defined.

(** ** Further properties of the parser and the downloader *)

Section ParserMore.

Local Abbreviation has_slash := (Str.contains Str.slash).

(** A name with exactly one separator has a slash-free rest after it. *)
Lemma count_one_rest a b :
  has_slash a = false ->
  Str.count Str.slash (a +:+ String Str.slash b) = 1%nat ->
  has_slash b = false.
Proof.
  induction a as [|c r IH].
  - simpl. rewrite ?Ascii.eqb_refl. intros _ H.
    apply count_contains. lia.
  - simpl. destruct (Ascii.eqb c Str.slash); simpl; [discriminate|].
    exact IH.
Qed.

Lemma append_empty_r a : a +:+ "" = a.
Proof.
  induction a as [|c r IH]; [reflexivity|].
  change (String c (r +:+ "") = String c r). now rewrite IH.
Qed.

(** The first two fields of a name are what the parser returns. *)
Lemma parse_two_fields team exe tail :
  has_slash team = false ->
  has_slash exe = false ->
  tail = "" \/ (exists more, tail = "/" +:+ more) ->
  _parse_package_name (team +:+ "/" +:+ exe +:+ tail) = Ok (team, exe).
Proof.
  intros Ht He Htail. unfold _parse_package_name.
  change ("/" +:+ exe +:+ tail) with (String Str.slash (exe +:+ tail)).
  rewrite !(split_app _ _ _ Ht).
  destruct Htail as [->|[more ->]].
  - rewrite append_empty_r. now rewrite (split_no_sep _ _ He).
  - change ("/" +:+ more) with (String Str.slash more).
    now rewrite (split_app _ _ _ He).
Qed.

(** X1: what the parser returns can be read back from the name: the name
    is the team, a '/', the executable name, and then either nothing or a
    further '/' with more text; neither returned part has a '/'.  When the
    name has exactly one '/', it is exactly team, '/', executable name. *)
Theorem parse_reads_back name team exe :
  _parse_package_name name = Ok (team, exe) ->
  has_slash team = false
  /\ has_slash exe = false
  /\ (exists rest,
        name = team +:+ "/" +:+ exe +:+ rest
        /\ (rest = "" \/ exists more, rest = "/" +:+ more))
  /\ (Str.count Str.slash name = 1%nat -> name = team +:+ "/" +:+ exe).
Proof.
  intros Hp.
  destruct (has_slash name) eqn:Hs;
    [|rewrite (parse_no_separator _ Hs) in Hp; discriminate].
  destruct (first_separator _ Hs) as (a & b & -> & Ha).
  destruct (has_slash b) eqn:Hb.
  - destruct (first_separator _ Hb) as (e & more & -> & He).
    unfold _parse_package_name in Hp.
    rewrite (split_app _ _ _ Ha), (split_app _ _ _ He) in Hp.
    injection Hp as <- <-.
    split; [exact Ha|]. split; [exact He|]. split.
    + exists (String Str.slash more). split; [reflexivity|].
      right. now exists more.
    + intros Hc. apply (count_one_rest _ _ Ha) in Hc.
      simpl in Hc. rewrite Hb in Hc. discriminate.
  - unfold _parse_package_name in Hp.
    rewrite (split_app _ _ _ Ha), (split_no_sep _ _ Hb) in Hp.
    injection Hp as <- <-.
    split; [exact Ha|]. split; [exact Hb|]. split.
    + exists "". split; [|now left].
      now rewrite append_empty_r.
    + intros _. reflexivity.
Qed.

Lemma parse_reads_back_witness :
  has_slash "teamA" = false
  /\ has_slash "toolB" = false
  /\ (exists rest,
        "teamA/toolB/v2" = "teamA" +:+ "/" +:+ "toolB" +:+ rest
        /\ (rest = "" \/ exists more, rest = "/" +:+ more))
  /\ (Str.count Str.slash "teamA/toolB/v2" = 1%nat ->
      "teamA/toolB/v2" = "teamA" +:+ "/" +:+ "toolB").
Proof.
  apply (parse_reads_back "teamA/toolB/v2" "teamA" "toolB"). reflexivity.
Defined.

End ParserMore.

Section DownloaderMore.

Local Abbreviation has_slash := (Str.contains Str.slash).

Variables (repository_path : string) (w : world) (s : state).

(** X2: the downloader asks the storage client for one copy, from the
    repository path followed by the whole package name, also the part after
    a second '/', into the fixed folder followed by the executable name
    alone; its outcome is the outcome of that copy, and it leaves the
    interpreter state alone. *)
Theorem download_copies_whole_name team exe tail region :
  has_slash team = false ->
  has_slash exe = false ->
  tail = "" \/ (exists more, tail = "/" +:+ more) ->
  s3path_region w repository_path = Ok region ->
  let package_name := team +:+ "/" +:+ exe +:+ tail in
  let x := _download_executables repository_path package_name w s in
  events x
  = [EvS3Copy region (repository_path +:+ package_name)
       (DEFAULT_EXE_FOLDER +:+ exe)]
  /\ outcome x
     = s3_copy w region (repository_path +:+ package_name)
         (DEFAULT_EXE_FOLDER +:+ exe)
  /\ final_state x = s.
Proof.
  intros Ht He Htail Hr package_name x. subst x.
  assert (Hp : _parse_package_name package_name = Ok (team, exe))
    by (apply parse_two_fields; assumption).
  unfold _download_executables, S3Path_region, storage_copy. unfold_m.
  rewrite Hr, Hp. repeat split.
Qed.

End DownloaderMore.

Lemma download_copies_whole_name_witness :
  let x :=
    _download_executables Demo.remote "teamA/toolB/v2"
      (Demo.world_with_storage (fun _ => Ok "us-west-1")
         (Raise (ExternalError "no such key")))
      Demo.fresh in
  events x
  = [EvS3Copy "us-west-1" "https://repo.example.com/teamA/toolB/v2"
       "/root/one_docker/package/toolB"]
  /\ outcome x = Raise (ExternalError "no such key")
  /\ final_state x = Demo.fresh.
Proof.
  apply (download_copies_whole_name Demo.remote
           (Demo.world_with_storage (fun _ => Ok "us-west-1")
              (Raise (ExternalError "no such key")))
           Demo.fresh "teamA" "toolB" "/v2" "us-west-1").
  - reflexivity.
  - reflexivity.
  - right. now exists "v2".
  - reflexivity.
Defined.

Section DownloaderErrors.

Variables (repository_path package_name : string) (w : world) (s : state).

(** X3: the downloader derives the region first: when that fails, its error
    is the outcome whatever the package name is; when the region is found
    and the package name has no '/', the outcome is IndexError.  In both
    cases the storage client is not called and the state is left alone. *)
Theorem download_fails_before_copy :
  (forall e,
     s3path_region w repository_path = Raise e ->
     _download_executables repository_path package_name w s
     = ([], s, Raise e))
  /\ (forall region,
        s3path_region w repository_path = Ok region ->
        Str.contains Str.slash package_name = false ->
        _download_executables repository_path package_name w s
        = ([], s, Raise IndexError)).
Proof.
  split.
  - intros e Hr.
    unfold _download_executables, S3Path_region. unfold_m.
    now rewrite Hr.
  - intros region Hr Hs.
    unfold _download_executables, S3Path_region. unfold_m.
    now rewrite Hr, (parse_no_separator _ Hs).
Qed.

End DownloaderErrors.

Lemma download_fails_before_copy_witness :
  _download_executables "not-a-url" "no-separator"
    (Demo.world_with_storage (fun _ => Raise (ExternalError "no region"))
       (Ok tt))
    Demo.fresh
  = ([], Demo.fresh, Raise (ExternalError "no region"))
  /\ _download_executables Demo.remote "no-separator"
       (Demo.world_with_storage (fun _ => Ok "us-west-1") (Ok tt))
       Demo.fresh
     = ([], Demo.fresh, Raise IndexError).
Proof.
  split.
  - apply (proj1 (download_fails_before_copy "not-a-url" "no-separator"
                    (Demo.world_with_storage
                       (fun _ => Raise (ExternalError "no region")) (Ok tt))
                    Demo.fresh)).
    reflexivity.
  - apply (proj2 (download_fails_before_copy Demo.remote "no-separator"
                    (Demo.world_with_storage (fun _ => Ok "us-west-1") (Ok tt))
                    Demo.fresh) "us-west-1").
    + reflexivity.
    + reflexivity.
Defined.

(** ** Further properties of the Process Runner *)

Section RunMore.

Variables (repository_path exe_path package_name cmd : string).
Variables (logger : Logger) (timeout : option Z) (w : world) (s : state).

Local Abbreviation the_run :=
  (run repository_path exe_path package_name cmd logger timeout w s).
Local Abbreviation the_download :=
  (_download_executables repository_path package_name w s).

(** The parser raises nothing but IndexError. *)
Lemma parse_raises_index_error e :
  _parse_package_name package_name = Raise e -> e = IndexError.
Proof.
  intros H. destruct (Str.contains Str.slash package_name) eqn:Hs.
  - destruct (parse_with_separator _ Hs) as (t & x & Hp). congruence.
  - rewrite (parse_no_separator _ Hs) in H. congruence.
Qed.

(** An invocation that is not launchable stops in the acquisition step or
    at the parse that follows it. *)
Lemma run_not_launchable :
  ~ launchable w repository_path package_name ->
  final_state the_run = s
  /\ (Str.upper repository_path = "LOCAL" ->
      events the_run = [EvLog logger "Local repository, skip download ..."]
      /\ outcome the_run = Raise IndexError)
  /\ (Str.upper repository_path <> "LOCAL" ->
      events the_run
      = EvLog logger "Downloading executables ..." :: events the_download
      /\ outcome the_run = outcome the_download
      /\ exists e, outcome the_download = Raise e).
Proof.
  intros Hn.
  destruct (String.eqb_spec (Str.upper repository_path) "LOCAL") as [Hl|Hl].
  - destruct (_parse_package_name package_name) as [[t x]|e] eqn:Hp.
    + exfalso. apply Hn. split; [now left|now rewrite Hp].
    + apply parse_raises_index_error in Hp as He. subst e.
      apply String.eqb_eq in Hl as Hb.
      exec_run. rewrite Hb, Hp. step.
      split; [reflexivity|]. split; [now split|]. intros H.
      apply String.eqb_neq in H. congruence.
  - apply String.eqb_neq in Hl as Hb.
    assert (Hdl : final_state the_run = s
                  /\ events the_run
                     = EvLog logger "Downloading executables ..."
                       :: events the_download
                  /\ outcome the_run = outcome the_download
                  /\ exists e, outcome the_download = Raise e).
    { exec_run. rewrite Hb. step.
      destruct (s3path_region w repository_path) as [region|e] eqn:Hr;
        [|step; repeat split; now exists e].
      destruct (_parse_package_name package_name) as [[t x]|e] eqn:Hp;
        [|step; repeat split; now exists e].
      step.
      destruct (s3_copy w region (repository_path +:+ package_name)
                  (DEFAULT_EXE_FOLDER +:+ x)) as [[]|e] eqn:Hc;
        [|step; repeat split; now exists e].
      exfalso. apply Hn. split; [right|now rewrite Hp].
      now exists region, t, x. }
    destruct Hdl as (Hs & He & Ho & Hx).
    split; [exact Hs|]. split; [intros H; contradiction|].
    intros _. now split.
Qed.

Lemma launchable_or_not :
  launchable w repository_path package_name
  \/ ~ launchable w repository_path package_name.
Proof.
  unfold launchable, downloaded.
  destruct (_parse_package_name package_name) as [[t x]|e] eqn:Hp;
    [|right; intros [_ H]; discriminate].
  destruct (String.eqb_spec (Str.upper repository_path) "LOCAL") as [Hl|Hl];
    [left; split; [now left|reflexivity]|].
  destruct (s3path_region w repository_path) as [region|e] eqn:Hr.
  - destruct (s3_copy w region (repository_path +:+ package_name)
                (DEFAULT_EXE_FOLDER +:+ x)) as [[]|e] eqn:Hc.
    + left. split; [right|reflexivity]. now exists region, t, x.
    + right. intros [[H|(r & t' & x' & Hr' & Hp' & Hc')] _];
        [contradiction|congruence].
  - right. intros [[H|(r & t' & x' & Hr' & Hp' & Hc')] _];
      [contradiction|congruence].
Qed.

(** X4: when the acquisition step or the parse of the package name fails,
    [run] stops there with that error: no permission is granted, nothing
    is launched, no SIGINT handler is installed and no counter is sampled.
    In local mode the error is IndexError, after the one log line; in
    remote mode events and outcome are the downloader's, after the log
    line that announces the download. *)
Theorem run_stops_before_permission :
  ~ launchable w repository_path package_name ->
  (exists e, outcome the_run = Raise e)
  /\ chmod_targets (events the_run) = []
  /\ launched_cmds (events the_run) = []
  /\ final_state the_run = s
  /\ (Str.upper repository_path = "LOCAL" ->
      events the_run = [EvLog logger "Local repository, skip download ..."]
      /\ outcome the_run = Raise IndexError)
  /\ (Str.upper repository_path <> "LOCAL" ->
      events the_run
      = EvLog logger "Downloading executables ..." :: events the_download
      /\ outcome the_run = outcome the_download).
Proof.
  intros Hn.
  assert (Hdl : chmod_targets (events the_download) = []
                /\ launched_cmds (events the_download) = []).
  { unfold _download_executables, S3Path_region, storage_copy, events.
    unfold mbind, M_bind, bind, lift.
    destruct (s3path_region w repository_path) as [region|]; [|now split].
    destruct (_parse_package_name package_name) as [[t x]|]; [|now split].
    step.
    destruct (s3_copy w region (repository_path +:+ package_name)
                (DEFAULT_EXE_FOLDER +:+ x)); now split. }
  destruct (run_not_launchable Hn) as (Hs & Hloc & Hrem).
  destruct (String.eqb_spec (Str.upper repository_path) "LOCAL") as [Hl|Hl].
  - destruct (Hloc Hl) as [He Ho]. rewrite He, Ho.
    split; [now exists IndexError|].
    split; [reflexivity|]. split; [reflexivity|]. split; [exact Hs|].
    split; [intros _; now split|]. intros Hne; contradiction.
  - destruct (Hrem Hl) as (He & Ho & e & Hx). rewrite He, Ho, Hx.
    destruct Hdl as [Hc Hp].
    split; [now exists e|].
    split; [exact Hc|]. split; [exact Hp|]. split; [exact Hs|].
    split; [intros H; contradiction|]. intros _. now split.
Qed.

(** X5: [run] returns normally only when everything went well: the
    invocation was launchable, the wait ended with the child exiting, and
    the child's return code was 0.  No failure is turned into a success. *)
Theorem run_returns_only_on_zero_exit :
  outcome the_run = Ok tt ->
  launchable w repository_path package_name
  /\ child_wait w timeout = ChildExits
  /\ child_returncode w = 0.
Proof.
  intros Hok. destruct launchable_or_not as [Hl|Hn].
  - split; [exact Hl|].
    destruct (run_launchable _ exe_path _ cmd logger timeout _ s Hl)
      as (acq & t & x & _ & Heq & _).
    rewrite Heq in Hok. unfold supervised, outcome in Hok.
    destruct (child_wait w timeout);
      [| exfalso; simpl in Hok; destruct (closing_wait w);
         [destruct (killpg_finds w (child_pid w) SIGTERM)|];
         discriminate Hok ..].
    split; [reflexivity|].
    destruct (Z.eqb_spec (child_returncode w) 0) as [H0|H0];
      [exact H0|discriminate Hok].
  - exfalso. destruct (run_not_launchable Hn) as (_ & Hloc & Hrem).
    destruct (String.eqb_spec (Str.upper repository_path) "LOCAL") as [Hl|Hl].
    + destruct (Hloc Hl) as [_ Ho]. congruence.
    + destruct (Hrem Hl) as (_ & Ho & e & Hx). congruence.
Qed.

End RunMore.

Lemma run_stops_before_permission_witness :
  let x :=
    run "LOCAL" "/opt/bin/" "no-separator" "tool --x" "log" None
      (Demo.world_of ChildExits 0) Demo.fresh in
  let d :=
    _download_executables "LOCAL" "no-separator"
      (Demo.world_of ChildExits 0) Demo.fresh in
  (exists e, outcome x = Raise e)
  /\ chmod_targets (events x) = []
  /\ launched_cmds (events x) = []
  /\ final_state x = Demo.fresh
  /\ ("LOCAL" = "LOCAL" ->
      events x = [EvLog "log" "Local repository, skip download ..."]
      /\ outcome x = Raise IndexError)
  /\ ("LOCAL" <> "LOCAL" ->
      events x = EvLog "log" "Downloading executables ..." :: events d
      /\ outcome x = outcome d).
Proof.
  apply (run_stops_before_permission "LOCAL" "/opt/bin/" "no-separator"
           "tool --x" "log" None (Demo.world_of ChildExits 0) Demo.fresh).
  intros [_ H]. discriminate H.
Defined.

Lemma run_returns_only_on_zero_exit_witness :
  launchable (Demo.world_of ChildExits 0) Demo.remote "teamA/toolB"
  /\ child_wait (Demo.world_of ChildExits 0) (Some 30) = ChildExits
  /\ child_returncode (Demo.world_of ChildExits 0) = 0.
Proof.
  apply (run_returns_only_on_zero_exit Demo.remote "/opt/bin" "teamA/toolB"
           "/opt/bin/toolB" "log" (Some 30) (Demo.world_of ChildExits 0)
           Demo.fresh).
  reflexivity.
Defined.

Section RunSteps.

Variables (repository_path exe_path package_name cmd : string).
Variables (logger : Logger) (timeout : option Z) (w : world) (s : state).
Variables (team exe_name : string).

Hypothesis Hlaunch : launchable w repository_path package_name.
Hypothesis Hparse : _parse_package_name package_name = Ok (team, exe_name).

Local Abbreviation the_run :=
  (run repository_path exe_path package_name cmd logger timeout w s).

Lemma run_supervised :
  exists acq,
    the_run = supervised acq w s exe_path exe_name
                (effective_cmd repository_path exe_path cmd) logger timeout
    /\ chmod_targets acq = []
    /\ launched_cmds acq = []
    /\ existsb is_net_usage_log acq = false
    /\ existsb is_net_sample acq = false
    /\ (Str.upper repository_path = "LOCAL" -> download_targets acq = [])
    /\ (Str.upper repository_path <> "LOCAL" ->
        download_targets acq = [DEFAULT_EXE_FOLDER +:+ exe_name]).
Proof.
  destruct (run_launchable _ exe_path _ cmd logger timeout _ s Hlaunch)
    as (acq & t & x & Hp & Heq & Hacq).
  rewrite Hparse in Hp. injection Hp as <- <-.
  exists acq. split; [exact Heq|].
  destruct Hacq as [[Hb ->]|(Hb & region & _ & ->)].
  - apply String.eqb_eq in Hb. repeat split. intros H; contradiction.
  - apply String.eqb_neq in Hb. repeat split. intros H; contradiction.
Qed.

(** X6: the steps of a launchable invocation come in a fixed order: first
    the acquisition (with every storage copy), then the chmod of
    [exe_path/exe_name], in local mode as in remote mode, then the log line
    that shows the effective command, then the installation of the SIGINT
    handler, immediately followed by the launch of that same command, then
    the first counter sample and the wait.  The handler installed at the
    end is [handler], whatever was installed before. *)
Theorem run_order_of_steps :
  exists acq rest,
    events the_run
    = acq
      ++ [EvShell ("chmod +x " +:+ exe_path +:+ "/" +:+ exe_name);
          EvLog logger
            ("Running cmd: "
             +:+ effective_cmd repository_path exe_path cmd +:+ " ...");
          EvSignal SIGINT;
          EvPopen (effective_cmd repository_path exe_path cmd);
          EvNetIoCounters;
          EvCommunicate timeout]
      ++ rest
    /\ chmod_targets acq = []
    /\ launched_cmds acq = []
    /\ download_targets acq = download_targets (events the_run)
    /\ sigint_handler (final_state the_run) = Some handler.
Proof.
  destruct run_supervised as (acq & -> & Hch & Hcmd & _ & _ & Hloc & Hrem).
  exists acq. unfold supervised, events, final_state.
  assert (Hdl : forall l,
            download_targets l = [] ->
            download_targets (acq ++ l) = download_targets acq).
  { intros l Hl. unfold download_targets in *.
    now rewrite omap_app, Hl, app_nil_r. }
  destruct (child_wait w timeout).
  - eexists. split; [step; rewrite <- app_assoc; reflexivity|].
    step. repeat split; try assumption.
    symmetry. rewrite <- app_assoc. apply Hdl.
    destruct (child_returncode w =? 0); reflexivity.
  - eexists. split; [step; rewrite <- app_assoc; reflexivity|].
    step. repeat split; try assumption.
    symmetry. rewrite <- app_assoc. now apply Hdl.
  - eexists. split; [step; rewrite <- app_assoc; reflexivity|].
    step. repeat split; try assumption.
    symmetry. rewrite <- app_assoc. now apply Hdl.
Qed.

End RunSteps.

Lemma run_order_of_steps_witness :
  let x :=
    run "local" "/opt/bin/" "team/myprog" "myprog --x" "log" (Some 30)
      (Demo.world_of ChildExits 0) Demo.fresh in
  exists acq rest,
    events x
    = acq
      ++ [EvShell "chmod +x /opt/bin//myprog";
          EvLog "log" "Running cmd: /opt/bin/myprog --x ...";
          EvSignal SIGINT;
          EvPopen "/opt/bin/myprog --x";
          EvNetIoCounters;
          EvCommunicate (Some 30)]
      ++ rest
    /\ chmod_targets acq = []
    /\ launched_cmds acq = []
    /\ download_targets acq = download_targets (events x)
    /\ sigint_handler (final_state x) = Some handler.
Proof.
  exact (run_order_of_steps "local" "/opt/bin/" "team/myprog" "myprog --x"
           "log" (Some 30) (Demo.world_of ChildExits 0) Demo.fresh
           "team" "myprog" (Examples.local_launchable ChildExits 0) eq_refl).
Defined.

Section RunCounters.

Variables (repository_path exe_path package_name cmd : string).
Variables (logger : Logger) (timeout : option Z) (w : world) (s : state).

Hypothesis Hlaunch : launchable w repository_path package_name.

Local Abbreviation the_run :=
  (run repository_path exe_path package_name cmd logger timeout w s).

Lemma prefix_append p r : String.prefix p (p +:+ r) = true.
Proof.
  induction p as [|c p IH]; [now destruct r|].
  change (String c p +:+ r) with (String c (p +:+ r)).
  simpl. destruct (ascii_dec c c); [exact IH|contradiction].
Qed.

(** X7: when the child completes, the counters are sampled exactly twice,
    once before the wait and once after it, and exactly one line reports
    the usage: the differences, second sample minus first, of the bytes
    sent and of the bytes received.  When the wait is cut short, only the
    first sample is taken. *)
Theorem run_reports_net_usage :
  let before := net_counters w (net_samples s) in
  let after := net_counters w (S (net_samples s)) in
  (child_wait w timeout = ChildExits ->
   List.filter is_net_usage_log (events the_run)
   = [EvLog logger
        ("Net usage: "
         +:+ Str.of_Z (bytes_sent after - bytes_sent before)
         +:+ " bytes sent, "
         +:+ Str.of_Z (bytes_recv after - bytes_recv before)
         +:+ " bytes received")]
   /\ length (List.filter is_net_sample (events the_run)) = 2%nat
   /\ net_samples (final_state the_run) = S (S (net_samples s)))
  /\ (child_wait w timeout <> ChildExits ->
      length (List.filter is_net_sample (events the_run)) = 1%nat
      /\ net_samples (final_state the_run) = S (net_samples s)).
Proof.
  intros before after. subst before after.
  destruct (run_launchable _ exe_path _ cmd logger timeout _ s Hlaunch)
    as (acq & t & x & _ & -> & Hacq).
  assert (Hpre : List.filter is_net_usage_log acq = []
                 /\ List.filter is_net_sample acq = []).
  { destruct Hacq as [[_ ->]|(_ & region & _ & ->)]; split; reflexivity. }
  destruct Hpre as [Hlog Hsample].
  unfold supervised, events, final_state.
  split; intros Hw.
  - rewrite Hw. simpl fst. simpl snd.
    rewrite !List.filter_app, Hlog, Hsample.
    match goal with
    | |- context [EvLog logger ("Net usage: " +:+ ?rest)] =>
        pose proof (prefix_append "Net usage: " rest) as Hm;
        remember ("Net usage: " +:+ rest) as msg
    end.
    destruct (child_returncode w =? 0); simpl; rewrite Hm;
      (split; [reflexivity|split; reflexivity]).
  - destruct (child_wait w timeout); [contradiction| |];
      simpl fst; simpl snd;
      rewrite !List.filter_app, Hsample; split; reflexivity.
Qed.

End RunCounters.

Lemma run_reports_net_usage_witness :
  let done :=
    run Demo.remote "/opt/bin" "teamA/toolB" "/opt/bin/toolB" "log"
      (Some 30) (Demo.world_of ChildExits 3) Demo.fresh in
  let cut :=
    run Demo.remote "/opt/bin" "teamA/toolB" "/opt/bin/toolB" "log"
      (Some 30) (Demo.world_of SigintArrives 0) Demo.fresh in
  (List.filter is_net_usage_log (events done)
   = [EvLog "log" "Net usage: 100 bytes sent, 10 bytes received"]
   /\ length (List.filter is_net_sample (events done)) = 2%nat
   /\ net_samples (final_state done) = 2%nat)
  /\ (length (List.filter is_net_sample (events cut)) = 1%nat
      /\ net_samples (final_state cut) = 1%nat).
Proof.
  split.
  - apply (proj1 (run_reports_net_usage Demo.remote "/opt/bin" "teamA/toolB"
                    "/opt/bin/toolB" "log" (Some 30)
                    (Demo.world_of ChildExits 3) Demo.fresh
                    (Examples.remote_launchable ChildExits 3))).
    reflexivity.
  - apply (proj2 (run_reports_net_usage Demo.remote "/opt/bin" "teamA/toolB"
                    "/opt/bin/toolB" "log" (Some 30)
                    (Demo.world_of SigintArrives 0) Demo.fresh
                    (Examples.remote_launchable SigintArrives 0))).
    discriminate.
Defined.

Section LocalMode.

Variables (exe_path package_name cmd : string).
Variables (logger : Logger) (timeout : option Z) (w : world) (s : state).

(** X9: in local mode only the upper-cased repository path matters: any
    two spellings of the sentinel give the same events, state and outcome,
    and no storage copy is made, whatever the world and the package name
    are. *)
Theorem run_local_spelling_irrelevant r1 r2 :
  Str.upper r1 = "LOCAL" ->
  Str.upper r2 = "LOCAL" ->
  run r1 exe_path package_name cmd logger timeout w s
  = run r2 exe_path package_name cmd logger timeout w s
  /\ download_targets
       (events (run r1 exe_path package_name cmd logger timeout w s)) = [].
Proof.
  intros H1 H2. unfold run. rewrite H1, H2. split; [reflexivity|].
  change (String.eqb "LOCAL" "LOCAL") with true. cbn [negb].
  exec_run.
  destruct (_parse_package_name package_name) as [[t x]|]; step;
    [|reflexivity].
  destruct (child_wait w timeout); step;
    [ destruct (child_returncode w =? 0); reflexivity
    | destruct (killpg_finds w (child_pid w) SIGTERM); step;
      destruct (closing_wait w); reflexivity .. ].
Qed.

End LocalMode.

Lemma run_local_spelling_irrelevant_witness :
  run "local" "/opt/bin/" "team/myprog" "myprog" "log" None
    (Demo.world_of ChildExits 0) Demo.fresh
  = run "LoCaL" "/opt/bin/" "team/myprog" "myprog" "log" None
      (Demo.world_of ChildExits 0) Demo.fresh
  /\ download_targets
       (events (run "local" "/opt/bin/" "team/myprog" "myprog" "log" None
                  (Demo.world_of ChildExits 0) Demo.fresh)) = [].
Proof.
  apply (run_local_spelling_irrelevant "/opt/bin/" "team/myprog" "myprog"
           "log" None (Demo.world_of ChildExits 0) Demo.fresh
           "local" "LoCaL");
    reflexivity.
Defined.

(** ** Further properties of the Configuration Resolver *)

Section ReadConfigMore.

Variables (logger : Logger) (config_name env_var default_val : string).
Variables (argument : option string) (w : world) (s : state).

(** X10: with a non-empty default the resolved value is never the empty
    string: an empty argument and an empty environment value are passed
    over, they are not returned. *)
Theorem read_config_never_empty :
  default_val <> "" ->
  exists v,
    outcome (_read_config logger config_name argument env_var default_val w s)
    = Ok (Some v)
    /\ v <> "".
Proof.
  intros Hd.
  destruct (present_or_absent argument) as [[a Ha]|Ha].
  - exists a. rewrite (read_config_argument _ _ _ _ _ _ _ _ Ha).
    split; [reflexivity|apply Ha].
  - destruct (present_or_absent (environ w !! env_var)) as [[e He]|He].
    + exists e. rewrite (read_config_environment _ _ _ _ _ _ _ _ Ha He).
      split; [reflexivity|apply He].
    + exists default_val.
      rewrite (read_config_default _ _ _ _ _ _ _ Ha He). now split.
Qed.

(** Two worlds that agree on the variable give the same resolution. *)
Lemma read_config_same_lookup (w' : world) :
  environ w' !! env_var = environ w !! env_var ->
  _read_config logger config_name argument env_var default_val w' s
  = _read_config logger config_name argument env_var default_val w s.
Proof.
  intros Hsame.
  destruct (present_or_absent argument) as [[a Ha]|Ha].
  - now rewrite !(read_config_argument _ _ _ _ _ _ _ _ Ha).
  - destruct (present_or_absent (environ w !! env_var)) as [[e He]|He].
    + rewrite (read_config_environment _ _ _ _ w s _ _ Ha He).
      rewrite <- Hsame in He.
      now rewrite (read_config_environment _ _ _ _ w' s _ _ Ha He).
    + rewrite (read_config_default _ _ _ _ w s _ Ha He).
      rewrite <- Hsame in He.
      now rewrite (read_config_default _ _ _ _ w' s _ Ha He).
Qed.

(** X11: the resolver consults no environment variable but the one it is
    given: setting or removing any other variable changes nothing of what
    it returns and logs. *)
Theorem read_config_other_variables (k v : string) :
  k <> env_var ->
  _read_config logger config_name argument env_var default_val
    (with_environ w (<[k := v]> (environ w))) s
  = _read_config logger config_name argument env_var default_val w s
  /\ _read_config logger config_name argument env_var default_val
       (with_environ w (delete k (environ w))) s
     = _read_config logger config_name argument env_var default_val w s.
Proof.
  intros Hk. split; apply read_config_same_lookup; cbn [environ with_environ].
  - apply (lookup_insert_ne (environ w) k env_var v Hk).
  - apply (lookup_delete_ne (environ w) k env_var Hk).
Qed.

(** X12: when no argument is given, the value resolved is the one the
    environment variable was last set to, if that is not empty, and the
    default once the variable is removed or set to the empty string. *)
Theorem read_config_follows_environment (e : string) :
  absent argument ->
  e <> "" ->
  outcome (_read_config logger config_name argument env_var default_val
             (with_environ w (<[env_var := e]> (environ w))) s)
  = Ok (Some e)
  /\ outcome (_read_config logger config_name argument env_var default_val
                (with_environ w (delete env_var (environ w))) s)
     = Ok (Some default_val)
  /\ outcome (_read_config logger config_name argument env_var default_val
                (with_environ w (<[env_var := ""]> (environ w))) s)
     = Ok (Some default_val).
Proof.
  intros Ha He. split; [|split].
  - rewrite (read_config_environment logger config_name env_var default_val
               _ s argument e Ha); [reflexivity|].
    split; [|exact He]. cbn [environ with_environ].
    apply lookup_insert_eq.
  - rewrite (read_config_default logger config_name env_var default_val
               _ s argument Ha); [reflexivity|].
    left. cbn [environ with_environ]. apply lookup_delete_eq.
  - rewrite (read_config_default logger config_name env_var default_val
               _ s argument Ha); [reflexivity|].
    right. cbn [environ with_environ]. apply lookup_insert_eq.
Qed.

End ReadConfigMore.

Lemma read_config_never_empty_witness :
  exists v,
    outcome (_read_config "log" "exe_path" (Some "") "ONEDOCKER_EXE_PATH"
               DEFAULT_EXE_FOLDER
               (with_environ (Demo.world_of ChildExits 0)
                  {[ "ONEDOCKER_EXE_PATH" := "" ]})
               Demo.fresh)
    = Ok (Some v)
    /\ v <> "".
Proof.
  apply (read_config_never_empty "log" "exe_path" "ONEDOCKER_EXE_PATH"
           DEFAULT_EXE_FOLDER (Some "")
           (with_environ (Demo.world_of ChildExits 0)
              {[ "ONEDOCKER_EXE_PATH" := "" ]})
           Demo.fresh).
  discriminate.
Defined.

Lemma read_config_other_variables_witness :
  let w := Demo.world_of ChildExits 0 in
  _read_config "log" "exe_path" None "ONEDOCKER_EXE_PATH" "D"
    (with_environ w (<["ONEDOCKER_REPOSITORY_PATH" := "LOCAL"]> (environ w)))
    Demo.fresh
  = _read_config "log" "exe_path" None "ONEDOCKER_EXE_PATH" "D" w Demo.fresh
  /\ _read_config "log" "exe_path" None "ONEDOCKER_EXE_PATH" "D"
       (with_environ w (delete "ONEDOCKER_REPOSITORY_PATH" (environ w)))
       Demo.fresh
     = _read_config "log" "exe_path" None "ONEDOCKER_EXE_PATH" "D" w
         Demo.fresh.
Proof.
  intros w.
  apply (read_config_other_variables "log" "exe_path" "ONEDOCKER_EXE_PATH"
           "D" None w Demo.fresh "ONEDOCKER_REPOSITORY_PATH" "LOCAL").
  discriminate.
Defined.

Lemma read_config_follows_environment_witness :
  let w := Demo.world_of ChildExits 0 in
  let var := "ONEDOCKER_REPOSITORY_PATH" in
  outcome (_read_config "log" "repository_path" None var
             DEFAULT_REPOSITORY_PATH
             (with_environ w (<[var := "LOCAL"]> (environ w))) Demo.fresh)
  = Ok (Some "LOCAL")
  /\ outcome (_read_config "log" "repository_path" None var
                DEFAULT_REPOSITORY_PATH
                (with_environ w (delete var (environ w))) Demo.fresh)
     = Ok (Some DEFAULT_REPOSITORY_PATH)
  /\ outcome (_read_config "log" "repository_path" None var
                DEFAULT_REPOSITORY_PATH
                (with_environ w (<[var := ""]> (environ w))) Demo.fresh)
     = Ok (Some DEFAULT_REPOSITORY_PATH).
Proof.
  intros w var.
  apply (read_config_follows_environment "log" "repository_path" var
           DEFAULT_REPOSITORY_PATH None w Demo.fresh "LOCAL").
  - left. reflexivity.
  - discriminate.
Defined.
